(** * Pyttman message containers: [MessageMixin], [Message], [Reply], [ReplyStream]

    A shallow embedding of
    [pyttman/core/communication/models/containers.py].

    Python values are dynamically typed, so the embedding works over one
    type [pyval] of values; a [str] is a list of Unicode code points; an
    instance of one of the message classes is its class together with its
    attribute dictionary (insertion ordered, as [__dict__] is); raising an
    exception is the [Raise] alternative of the result type [res]. *)

From Stdlib Require Import List String Ascii Arith NArith Bool Lia.
Import ListNotations.

Set Implicit Arguments.

(** ** Exceptions and results *)

(** The exception classes that the module and the builtins it calls can
    raise.  [KeyboardInterrupt] stands for the classes that derive from
    [BaseException] but not from [Exception]; [RuntimeError] for any
    other exception a caller-supplied [__str__] or [__repr__] raises. *)
Inductive exn : Type :=
| TypeError
| ValueError
| IndexError
| AttributeError
| Empty
| RuntimeError
| KeyboardInterrupt.

(** [except Exception] *)
Definition is_Exception (e : exn) : bool :=
  match e with
  | KeyboardInterrupt => false
  | _ => true
  end.

(** [except ValueError] *)
Definition is_ValueError (e : exn) : bool :=
  match e with
  | ValueError => true
  | _ => false
  end.

Inductive res (A : Type) : Type :=
| Ok (a : A)
| Raise (e : exn).

Arguments Ok {A} a.
Arguments Raise {A} e.

Definition bind {A B : Type} (r : res A) (k : A -> res B) : res B :=
  match r with
  | Ok a => k a
  | Raise e => Raise e
  end.

Notation "x <- r ;; k" := (bind r (fun x => k))
  (at level 61, r at next level, right associativity).

Section Loops.
Variables A B S : Type.

(** A comprehension [[f(i) for i in xs]]: elements are evaluated from left
    to right and the first exception ends the evaluation. *)
Variable f : A -> res B.

Fixpoint mapM (xs : list A) : res (list B) :=
  match xs with
  | [] => Ok []
  | x :: xs' => y <- f x ;; ys <- mapM xs' ;; Ok (y :: ys)
  end.

(** A [for] loop over [xs] whose body updates a state and may raise. *)
Variable body : S -> A -> res S.

Fixpoint foldM (xs : list A) (s : S) : res S :=
  match xs with
  | [] => Ok s
  | x :: xs' => s' <- body s x ;; foldM xs' s'
  end.

End Loops.

(** ** Python strings *)

Definition codepoint : Type := N.
Definition pystr : Type := list codepoint.

(** A literal of the source, written in ASCII. *)
Definition lit (s : string) : pystr := map N_of_ascii (list_ascii_of_string s).

Definition LF : codepoint := 10%N.
Definition CR : codepoint := 13%N.

(** [str.isspace] on one character: the ASCII table of CPython
    (tab to carriage return, the four separators 0x1C to 0x1F, space) and
    the Unicode characters of bidirectional type WS, B or S or of
    category Zs. *)
Definition isspace (c : codepoint) : bool :=
  ((9 <=? c) && (c <=? 13) || (28 <=? c) && (c <=? 32)
   || (c =? 133) || (c =? 160) || (c =? 5760)
   || (8192 <=? c) && (c <=? 8202)
   || (c =? 8232) || (c =? 8233) || (c =? 8239) || (c =? 8287)
   || (c =? 12288))%N.

(** The line boundaries of [str.splitlines]. *)
Definition islinebreak (c : codepoint) : bool :=
  ((10 <=? c) && (c <=? 13) || (28 <=? c) && (c <=? 30)
   || (c =? 133) || (c =? 8232) || (c =? 8233))%N.

(** [s.split()] without a separator: the maximal runs of characters that
    are not whitespace.  [cur] holds the characters of the run being read,
    last one first. *)
Fixpoint split_from (cur : pystr) (s : pystr) : list pystr :=
  match s with
  | [] => match cur with [] => [] | _ => [rev cur] end
  | c :: s' =>
      if isspace c
      then match cur with
           | [] => split_from [] s'
           | _ => rev cur :: split_from [] s'
           end
      else split_from (c :: cur) s'
  end.

Definition split (s : pystr) : list pystr := split_from [] s.

(** [s.splitlines(keepends)]: a line ends at a line boundary, and a
    carriage return directly followed by a line feed is one boundary. *)
Fixpoint splitlines_from (keepends : bool) (cur : pystr) (s : pystr) : list pystr :=
  match s with
  | [] => match cur with [] => [] | _ => [rev cur] end
  | c :: s' =>
      if islinebreak c
      then match s' with
           | c' :: s'' =>
               if ((c =? CR) && (c' =? LF))%N
               then rev (if keepends then c' :: c :: cur else cur)
                      :: splitlines_from keepends [] s''
               else rev (if keepends then c :: cur else cur)
                      :: splitlines_from keepends [] s'
           | [] => [rev (if keepends then c :: cur else cur)]
           end
      else splitlines_from keepends (c :: cur) s'
  end.

Definition splitlines (keepends : bool) (s : pystr) : list pystr :=
  splitlines_from keepends [] s.

(** [sep.join(parts)] on strings. *)
Fixpoint join (sep : pystr) (parts : list pystr) : pystr :=
  match parts with
  | [] => []
  | [p] => p
  | p :: ps => p ++ sep ++ join sep ps
  end.

(** ** Python values *)

(** The builtins whose result depends on the Unicode character database:
    [repr] of a [str] (quoting and escapes), [str.isalnum] on one
    character and [str.lower]. *)
Class Builtins : Type := {
  str_repr : pystr -> pystr;
  isalnum : codepoint -> bool;
  str_lower : pystr -> pystr
}.

(** The classes of the module. *)
Inductive msgclass : Type :=
| MessageMixin
| Message
| Reply.

Definition class_name (cls : msgclass) : pystr :=
  match cls with
  | MessageMixin => lit "MessageMixin"
  | Message => lit "Message"
  | Reply => lit "Reply"
  end.

(** [issubclass(cls, Reply)] *)
Definition is_Reply_class (cls : msgclass) : bool :=
  match cls with
  | Reply => true
  | _ => false
  end.

(** A value is [None], a [str], a [list], a [tuple], a [dict] (its items
    in order), an instance of a class of this module (its class and its
    attribute dictionary), or any other object, of which the module only
    ever takes [str(...)] and [repr(...)]: such an object is given by what
    these two calls do. *)
#[local] Set Warnings "-register-all".

Inductive pyval : Type :=
| PyNone
| PyStr (s : pystr)
| PyList (xs : list pyval)
| PyTuple (xs : list pyval)
| PyDict (items : list (pyval * pyval))
| PyInst (cls : msgclass) (attrs : list (string * pyval))
| PyObj (str_ repr_ : res pystr).

Definition attrs : Type := list (string * pyval).

(** [self.__dict__[k]] *)
Fixpoint lookup (k : string) (d : attrs) : option pyval :=
  match d with
  | [] => None
  | (k', v) :: d' => if String.eqb k k' then Some v else lookup k d'
  end.

(** [self.__dict__[k] = v]: an existing key keeps its place. *)
Fixpoint store (k : string) (v : pyval) (d : attrs) : attrs :=
  match d with
  | [] => [(k, v)]
  | (k', v') :: d' =>
      if String.eqb k k' then (k, v) :: d' else (k', v') :: store k v d'
  end.

Definition keys (kwargs : attrs) : list string := map fst kwargs.

(** [self.k] for an instance attribute. *)
Definition getattr (self : attrs) (k : string) : res pyval :=
  match lookup k self with
  | Some v => Ok v
  | None => Raise AttributeError
  end.

(** [iter(v)] run to its end.  An object given only by its [str] and
    [repr] is taken to have no other method: it is not iterable. *)
Definition iterate (v : pyval) : res (list pyval) :=
  match v with
  | PyList xs | PyTuple xs => Ok xs
  | PyStr s => Ok (map (fun c => PyStr [c]) s)
  | PyDict items => Ok (map fst items)
  | _ => Raise TypeError
  end.

(** [sep.join(v)]: every item has to be a [str]. *)
Definition str_join (sep : pystr) (v : pyval) : res pystr :=
  items <- iterate v ;;
  parts <- mapM (fun i => match i with
                          | PyStr s => Ok s
                          | _ => Raise TypeError
                          end) items ;;
  Ok (join sep parts).

Section Values.
Context {builtins : Builtins}.

(** [repr(v)].  For an instance of a message class this is
    [MessageMixin.__repr__]; its f-string formats the attributes with
    [str], and [self.content] reads [self._content]. *)
Fixpoint py_repr (v : pyval) : res pystr :=
  let str_ (x : pyval) : res pystr :=
    match x with
    | PyStr s => Ok s
    | PyObj s _ => s
    | _ => py_repr x
    end in
  match v with
  | PyNone => Ok (lit "None")
  | PyStr s => Ok (str_repr s)
  | PyList xs =>
      rs <- mapM py_repr xs ;;
      Ok (lit "[" ++ join (lit ", ") rs ++ lit "]")
  | PyTuple xs =>
      rs <- mapM py_repr xs ;;
      match rs with
      | [r] => Ok (lit "(" ++ r ++ lit ",)")
      | _ => Ok (lit "(" ++ join (lit ", ") rs ++ lit ")")
      end
  | PyDict items =>
      rs <- mapM (fun kv : pyval * pyval =>
                    let (k, x) := kv in
                    rk <- py_repr k ;; rx <- py_repr x ;;
                    Ok (rk ++ lit ": " ++ rx)) items ;;
      Ok (lit "{" ++ join (lit ", ") rs ++ lit "}")
  | PyInst cls d =>
      let field := fix field (k : string) (d : list (string * pyval)) : res pystr :=
        match d with
        | [] => Raise AttributeError
        | (k', x) :: d' => if String.eqb k k' then str_ x else field k d'
        end in
      author <- field "author"%string d ;;
      created <- field "created"%string d ;;
      content <- field "_content"%string d ;;
      Ok (class_name cls ++ lit "(author=" ++ author ++ lit ", created=" ++ created
            ++ lit ", content=" ++ content ++ lit ")")
  | PyObj _ r => r
  end.

(** [str(v)]: a [str] is itself; every other builtin type and the message
    classes inherit [object.__str__], which calls [repr]. *)
Definition py_str (v : pyval) : res pystr :=
  match v with
  | PyStr s => Ok s
  | PyObj s _ => s
  | _ => py_repr v
  end.

End Values.

(** ** MessageMixin *)

Section MessageMixin.
Context {builtins : Builtins}.

Local Open Scope string_scope.

(** The setter of the [content] property. *)
Definition content_setter (self : attrs) (val : pyval) : res attrs :=
  match val with
  | PyNone =>
      Ok (store "_content" (PyList [PyStr (lit "None")]) self)
  | PyStr s =>
      Ok (store "_content" (PyList (map PyStr (split s))) self)
  | PyList xs | PyTuple xs =>
      toks <- mapM py_str xs ;;
      Ok (store "_content" (PyList (map PyStr toks)) self)
  | PyDict _ =>
      s <- py_str val ;;
      Ok (store "_content" (PyList (map PyStr (split s))) self)
  | _ =>
      match py_repr val with
      | Ok s => Ok (store "_content" (PyList (map PyStr (split s))) self)
      | Raise e => if is_Exception e then Raise TypeError else Raise e
      end
  end.

(** The getter of the [content] property. *)
Definition content (self : attrs) : res pyval := getattr self "_content".

(** [setattr(self, k, v)], also written [self.k = v]: [content] is a
    property of the class, every other name is an instance attribute.
    This is [setattr] on the ordinary names; the names [__class__],
    [__dict__] and [__weakref__], which the interpreter does not keep in
    the attribute dictionary, are not told apart here. *)
Definition setattr (self : attrs) (k : string) (v : pyval) : res attrs :=
  if String.eqb k "content" then content_setter self v else Ok (store k v self).

(** [MessageMixin.__init__(self, content, **kwargs)]; [now] is what
    [datetime.now()] returns during the call.  The keyword arguments
    arrive as the items of a [dict], in order. *)
Definition init (now : pyval) (self : attrs) (val : pyval) (kwargs : attrs) : res attrs :=
  self <- setattr self "author" (PyStr (lit "anonymous")) ;;
  self <- setattr self "created" now ;;
  self <- setattr self "client" PyNone ;;
  self <- setattr self "content" val ;;
  self <- match py_str val with
          | Ok s =>
              setattr self "content_with_format"
                (PyList (map PyStr (splitlines true s)))
          | Raise e =>
              if is_ValueError e
              then setattr self "content_with_format" PyNone
              else Raise e
          end ;;
  foldM (fun self kv => setattr self (fst kv) (snd kv)) kwargs self.

(** The call [cls(content, **kwargs)]: a new instance, on which
    [__init__] runs; an exception in [__init__] leaves the caller without
    an instance. *)
Definition new (cls : msgclass) (now : pyval) (val : pyval) (kwargs : attrs) : res pyval :=
  self <- init now [] val kwargs ;;
  Ok (PyInst cls self).

(** [re.sub(r"[^\w\s]", "", i)] *)
Definition strip_symbols (i : pystr) : pystr :=
  filter (fun c => isalnum c || N.eqb c 95 || isspace c) i.

Definition sanitized_content (self : attrs) (preserve_case : bool) : res (list pystr) :=
  c <- content self ;;
  items <- iterate c ;;
  mapM (fun i =>
          match i with
          | PyStr s =>
              let sanitized := strip_symbols s in
              if preserve_case then Ok sanitized else Ok (str_lower sanitized)
          | _ => Raise TypeError
          end) items.


Definition as_str (self : attrs) (sanitized : bool) : res pystr :=
  if sanitized
  then toks <- sanitized_content self false ;; Ok (join (lit " ") toks)
  else
    cwf <- getattr self "content_with_format" ;;
    match cwf with
    | PyNone => c <- content self ;; str_join (lit " ") c
    | _ => str_join [] cwf
    end.


End MessageMixin.

(** ** ReplyStream *)

(** [map(f, xs)] of Python 3 builds an iterator: [f] is applied to an item
    only when the iterator is asked for its next value, and building the
    iterator applies [f] to nothing.  Here [f] is a bound method that
    updates the state [S] of its object. *)
Record map_object (S A : Type) : Type := {
  map_func : A -> S -> S;
  map_pending : list A
}.

Definition py_map {S A : Type} (f : A -> S -> S) (xs : list A) : map_object S A :=
  {| map_func := f; map_pending := xs |}.

(** What consuming the iterator to its end ([list(m)], a [for] loop) does
    to the state. *)
Definition exhaust {S A : Type} (m : map_object S A) (s : S) : S :=
  fold_left (fun s x => map_func m x s) (map_pending m) s.

(** The state of a [queue.Queue] that one thread can observe: the deque of
    pending items and the counter of unfinished tasks.  [maxsize] is 0,
    since [ReplyStream.__init__] calls [super().__init__()] without an
    argument. *)
Record ReplyStream : Type := {
  queue : list pyval;
  unfinished_tasks : nat
}.

(** [Queue.__init__(self)] *)
Definition Queue_init : ReplyStream :=
  {| queue := []; unfinished_tasks := 0 |}.

(** [Queue._put]: [self.queue.append(item)] *)
Definition _put (item : pyval) (self : ReplyStream) : ReplyStream :=
  {| queue := queue self ++ [item]; unfinished_tasks := unfinished_tasks self |}.

(** [Queue._get]: [self.queue.popleft()], which raises [IndexError] on an
    empty deque. *)
Definition _get (self : ReplyStream) : res pyval * ReplyStream :=
  match queue self with
  | [] => (Raise IndexError, self)
  | item :: rest =>
      (Ok item, {| queue := rest; unfinished_tasks := unfinished_tasks self |})
  end.

(** [Queue.put(item)], inherited: with [maxsize] 0 it never waits. *)
Definition put (item : pyval) (self : ReplyStream) : ReplyStream :=
  let self := _put item self in
  {| queue := queue self; unfinished_tasks := S (unfinished_tasks self) |}.

(** [ReplyStream.__init__(self, collection)]: the iterator that [map]
    returns is the value of an expression statement and is dropped. *)
Definition ReplyStream_init (collection : option (list pyval)) : ReplyStream :=
  let self := Queue_init in
  match collection with
  | Some c => let _ := py_map _put c in self
  | None => self
  end.

(** [isinstance(element, Reply)] *)
Definition isinstance_Reply (element : pyval) : bool :=
  match element with
  | PyInst cls _ => is_Reply_class cls
  | _ => false
  end.

Section ReplyStream.
Context {builtins : Builtins}.

(** [ReplyStream.get(self, block, timeout)]; [now] is what
    [datetime.now()] returns if a [Reply] is built during the call. *)
Definition get (now : pyval) (block : bool) (timeout : option N)
    (self : ReplyStream) : res pyval * ReplyStream :=
  let (r, self) := _get self in
  match r with
  | Ok element =>
      (if negb (isinstance_Reply element)
       then new Reply now element []
       else Ok element, self)
  | Raise e => (Raise e, self)
  end.

(** What a [get] makes of the payload [element] once it is taken from the
    queue: the payload itself if it is a [Reply], else [Reply(element)]. *)
Definition as_reply (now element : pyval) : res pyval :=
  if isinstance_Reply element then Ok element else new Reply now element [].



End ReplyStream.

(** ** Sample environment *)

(** The builtins on ASCII text without quotes, backslashes or control
    characters, where [repr] of a [str] only adds the single quotes; used
    to run the model on concrete inputs. *)
Definition ascii_builtins : Builtins := {|
  str_repr := fun s => lit "'" ++ s ++ lit "'";
  isalnum := fun c =>
    ((48 <=? c) && (c <=? 57) || (65 <=? c) && (c <=? 90)
     || (97 <=? c) && (c <=? 122))%N;
  str_lower := map (fun c => if ((65 <=? c) && (c <=? 90))%N then (c + 32)%N else c)
|}.

(** A clock reading: a [datetime] object, given by its [str] and [repr]. *)
Definition noon : pyval :=
  PyObj (Ok (lit "2021-06-01 12:00:00"))
        (Ok (lit "datetime.datetime(2021, 6, 1, 12, 0)")).

(** An object whose [__str__] raises while its [__repr__] works. *)
Definition unprintable : pyval :=
  PyObj (Raise RuntimeError) (Ok (lit "<Thing>")).

(** The text of two lines, each ended by a line feed. *)
Definition two_lines : pystr :=
  lit "line1" ++ [LF] ++ lit "line2" ++ [LF].

(** [tokens] of the specification: a [list] all of whose items are [str]. *)
Definition is_str (v : pyval) : bool :=
  match v with
  | PyStr _ => true
  | _ => false
  end.

Definition is_str_list (v : pyval) : bool :=
  match v with
  | PyList xs => forallb is_str xs
  | _ => false
  end.

(** Some character of [s] is not whitespace. *)
Definition has_visible (s : pystr) : bool :=
  existsb (fun c => negb (isspace c)) s.

(** The inputs whose text shows something: a string, or an opaque object
    whose representation, has a character that is not whitespace; a list
    or tuple has an item; [None], a [dict] and a message instance always
    do. *)
Definition visible_input (val : pyval) : bool :=
  match val with
  | PyStr s => has_visible s
  | PyList xs | PyTuple xs => match xs with [] => false | _ => true end
  | PyObj _ (Ok r) => has_visible r
  | PyObj _ (Raise _) => false
  | _ => true
  end.

(** What [split] calls a token: a string that is not empty and has no
    whitespace. *)
Definition is_token (t : pystr) : bool :=
  match t with
  | [] => false
  | _ => forallb (fun c => negb (isspace c)) t
  end.

(** An object whose [__str__] raises [ValueError] while its [__repr__]
    works. *)
Definition shy : pyval :=
  PyObj (Raise ValueError) (Ok (lit "<shy thing>")).

(** Plain text input: [None], a string, or a list or tuple of strings. *)
Definition plain_text (val : pyval) : bool :=
  match val with
  | PyNone | PyStr _ => true
  | PyList xs | PyTuple xs => forallb is_str xs
  | _ => false
  end.


Section Conversion.
Context {builtins : Builtins}.

Local Open Scope string_scope.




End Conversion.

(** * Properties *)

Unset Implicit Arguments.

(** ** The queue *)

Lemma exhaust_py_map_put (items : list pyval) (self : ReplyStream) :
  queue (exhaust (py_map _put items) self) = queue self ++ items.
Proof.
  unfold exhaust, py_map; simpl.
  revert self; induction items as [|x items IH]; intros self; simpl.
  - now rewrite app_nil_r.
  - rewrite IH; simpl. now rewrite <- app_assoc.
Qed.


Section QueueFacts.
Context {builtins : Builtins}.

Lemma get_on_empty (now : pyval) (block : bool) (timeout : option N) (n : nat) :
  get now block timeout {| queue := []; unfinished_tasks := n |}
  = (Raise IndexError, {| queue := []; unfinished_tasks := n |}).
Proof. reflexivity. Qed.

Lemma get_on_head (now : pyval) (block : bool) (timeout : option N)
    (p : pyval) (q : list pyval) (n : nat) :
  get now block timeout {| queue := p :: q; unfinished_tasks := n |}
  = (if isinstance_Reply p then Ok p else new Reply now p [],
     {| queue := q; unfinished_tasks := n |}).
Proof.
  unfold get, _get; simpl. now destruct (isinstance_Reply p).
Qed.

Lemma new_is_instance (cls : msgclass) (now val : pyval) (kwargs : attrs) (r : pyval) :
  new cls now val kwargs = Ok r -> exists d, r = PyInst cls d.
Proof.
  unfold new. destruct (init now [] val kwargs) as [d|e]; simpl; intros H.
  - inversion H. now exists d.
  - discriminate.
Qed.

Lemma as_reply_is_Reply (now element r : pyval) :
  as_reply now element = Ok r -> isinstance_Reply r = true.
Proof.
  unfold as_reply. destruct (isinstance_Reply element) eqn:E; intros H.
  - inversion H; subst; exact E.
  - apply new_is_instance in H. destruct H as [d ->]. reflexivity.
Qed.


(** C1 (fails on the code).  [ReplyStream(collection)] enqueues nothing:
    whatever the initial collection holds, the buffer is the empty buffer
    of [Queue.__init__], so its deque is empty and a [get] right after the
    construction finds no item and raises [IndexError]. *)
Theorem ReplyStream_init_enqueues_nothing (items : list pyval) (now : pyval) :
  ReplyStream_init (Some items) = Queue_init
  /\ queue (ReplyStream_init (Some items)) = []
  /\ fst (get now false None (ReplyStream_init (Some items))) = Raise IndexError.
Proof. repeat split. Qed.

(** C2 (fails on the code).  A non-blocking [get] on an empty buffer does
    fail at once and leaves the buffer as it is, but the exception is the
    [IndexError] of the deque, not [Empty]. *)
Theorem get_nonblocking_on_empty_raises_IndexError
    (now : pyval) (timeout : option N) (n : nat) :
  get now false timeout {| queue := []; unfinished_tasks := n |}
  = (Raise IndexError, {| queue := []; unfinished_tasks := n |})
  /\ Raise IndexError <> Raise (A := pyval) Empty.
Proof. split; [apply get_on_empty | discriminate]. Qed.

(** C3 (fails on the code).  A blocking [get] on an empty buffer, with or
    without a timeout, is the same computation as a non-blocking one: it
    returns to its caller with [IndexError] and never reads [block] or
    [timeout]. *)
Theorem get_blocking_on_empty_raises_IndexError
    (now : pyval) (timeout : option N) (n : nat) :
  get now true timeout {| queue := []; unfinished_tasks := n |}
  = (Raise IndexError, {| queue := []; unfinished_tasks := n |})
  /\ get now true timeout {| queue := []; unfinished_tasks := n |}
     = get now false None {| queue := []; unfinished_tasks := n |}.
Proof. split; reflexivity. Qed.

End QueueFacts.

(** ** Messages *)

Lemma lookup_store_same (k : string) (v : pyval) (d : attrs) :
  lookup k (store k v d) = Some v.
Proof.
  induction d as [|[k' v'] d IH]; simpl.
  - now rewrite String.eqb_refl.
  - destruct (String.eqb k k') eqn:E; simpl.
    + now rewrite String.eqb_refl.
    + now rewrite E.
Qed.

Lemma lookup_store_other (j k : string) (v : pyval) (d : attrs) :
  j <> k -> lookup j (store k v d) = lookup j d.
Proof.
  intros Hjk. apply String.eqb_neq in Hjk.
  induction d as [|[k' v'] d IH]; simpl.
  - now rewrite Hjk.
  - destruct (String.eqb k k') eqn:E; simpl.
    + apply String.eqb_eq in E; subst k'. now rewrite Hjk.
    + now rewrite IH.
Qed.

Lemma is_str_list_map_PyStr (toks : list pystr) :
  is_str_list (PyList (map PyStr toks)) = true.
Proof. simpl. induction toks; simpl; auto. Qed.

Lemma split_from_visible (cur s : pystr) :
  cur <> [] \/ has_visible s = true -> split_from cur s <> [].
Proof.
  revert cur; induction s as [|c s IH]; intros cur [H|H]; simpl in *.
  - destruct cur; [contradiction | discriminate].
  - discriminate.
  - destruct (isspace c).
    + destruct cur; [contradiction | discriminate].
    + apply IH. left; discriminate.
  - destruct (isspace c); simpl in H.
    + destruct cur; [apply IH; now right | discriminate].
    + apply IH. left; discriminate.
Qed.

Lemma split_visible (s : pystr) : has_visible s = true -> split s <> [].
Proof. intros H. apply split_from_visible. now right. Qed.

Lemma splitlines_from_concat (s cur : pystr) :
  List.concat (splitlines_from true cur s) = rev cur ++ s.
Proof.
  assert (H : forall n s cur, List.length s <= n ->
                List.concat (splitlines_from true cur s) = rev cur ++ s).
  { clear s cur. induction n as [|n IH]; intros s cur Hn.
    - destruct s; [|simpl in Hn; lia]. simpl.
      destruct cur; simpl; [reflexivity|]. now rewrite !app_nil_r.
    - destruct s as [|c s]; simpl.
      + destruct cur; simpl; [reflexivity|]. now rewrite !app_nil_r.
      + simpl in Hn. destruct (islinebreak c).
        * destruct s as [|c' s].
          -- simpl. now rewrite !app_nil_r.
          -- simpl in Hn.
             destruct ((c =? CR)%N && (c' =? LF)%N); cbn [List.concat];
               rewrite IH by (simpl; lia); simpl; rewrite <- ?app_assoc; reflexivity.
        * rewrite IH by lia. simpl. now rewrite <- app_assoc. }
  apply (H (List.length s)). lia.
Qed.

Lemma splitlines_concat (s : pystr) : List.concat (splitlines true s) = s.
Proof. apply splitlines_from_concat. Qed.

Lemma join_empty_concat (parts : list pystr) : join [] parts = List.concat parts.
Proof.
  induction parts as [|p [|q ps] IH]; simpl in *.
  - reflexivity.
  - now rewrite app_nil_r.
  - now rewrite IH.
Qed.

Lemma str_join_strs (sep : pystr) (parts : list pystr) :
  str_join sep (PyList (map PyStr parts)) = Ok (join sep parts).
Proof.
  unfold str_join; simpl.
  assert (H : mapM (fun i => match i with PyStr s => Ok s | _ => Raise TypeError end)
                (map PyStr parts) = Ok parts).
  { induction parts as [|p ps IH]; simpl; [reflexivity|]. now rewrite IH. }
  now rewrite H.
Qed.

Section MessageFacts.
Context {builtins : Builtins}.

Local Open Scope string_scope.

(** The [for] loop of [__init__] over the keyword arguments. *)
Local Abbreviation set_kwargs := (foldM (fun self kv => setattr self (fst kv) (snd kv))).

Lemma content_setter_stores (self self' : attrs) (val : pyval) :
  content_setter self val = Ok self' ->
  exists toks, self' = store "_content" (PyList (map PyStr toks)) self.
Proof.
  unfold content_setter. intros H.
  destruct val; simpl in H;
    repeat match type of H with
      | bind ?r _ = _ => destruct r; simpl in H
      | match ?r with Ok _ => _ | Raise _ => _ end = _ => destruct r
      | (if ?b then _ else _) = _ => destruct b
      end;
    try discriminate; inversion H; eauto.
  now exists [lit "None"%string].
Qed.

Lemma setattr_lookup_other (self self' : attrs) (k j : string) (v : pyval) :
  setattr self k v = Ok self' ->
  j <> k -> (k = "content" -> j <> "_content") ->
  lookup j self' = lookup j self.
Proof.
  unfold setattr. intros H Hjk Hc.
  destruct (String.eqb k "content") eqn:E.
  - apply String.eqb_eq in E.
    apply content_setter_stores in H. destruct H as [toks ->].
    apply lookup_store_other. auto.
  - inversion H; subst. now apply lookup_store_other.
Qed.

Lemma setattr_keeps_tokens (self self' : attrs) (k : string) (v : pyval) :
  setattr self k v = Ok self' -> k <> "_content" ->
  (exists c, lookup "_content" self = Some c /\ is_str_list c = true) ->
  exists c, lookup "_content" self' = Some c /\ is_str_list c = true.
Proof.
  unfold setattr. intros H Hk Htok.
  destruct (String.eqb k "content") eqn:E.
  - apply content_setter_stores in H. destruct H as [toks ->].
    rewrite lookup_store_same. eexists; split; [reflexivity|].
    apply is_str_list_map_PyStr.
  - inversion H; subst. rewrite lookup_store_other by congruence. exact Htok.
Qed.

Lemma kwargs_lookup_other (kwargs : attrs) (j : string) :
  forall self self' : attrs,
  set_kwargs kwargs self = Ok self' ->
  ~ In j (keys kwargs) -> (In "content" (keys kwargs) -> j <> "_content") ->
  lookup j self' = lookup j self.
Proof.
  induction kwargs as [|[k v] kwargs IH]; simpl; intros self self' H Hj Hc.
  - now inversion H.
  - destruct (setattr self k v) as [self1|e] eqn:E; simpl in H; [|discriminate].
    rewrite (IH _ _ H) by tauto.
    apply (setattr_lookup_other _ _ _ _ _ E).
    + intros ->. tauto.
    + intros ->. tauto.
Qed.

Lemma kwargs_keep_tokens (kwargs : attrs) :
  forall self self' : attrs,
  set_kwargs kwargs self = Ok self' ->
  ~ In "_content" (keys kwargs) ->
  (exists c, lookup "_content" self = Some c /\ is_str_list c = true) ->
  exists c, lookup "_content" self' = Some c /\ is_str_list c = true.
Proof.
  induction kwargs as [|[k v] kwargs IH]; simpl; intros self self' H Hk Htok.
  - now inversion H; subst.
  - destruct (setattr self k v) as [self1|e] eqn:E; simpl in H; [|discriminate].
    apply (IH _ _ H); [tauto|].
    apply (setattr_keeps_tokens _ _ _ _ E); [|exact Htok].
    intros ->. tauto.
Qed.

Lemma kwargs_lookup_in (kwargs : attrs) (k : string) (v : pyval) :
  forall self self' : attrs,
  set_kwargs kwargs self = Ok self' ->
  NoDup (keys kwargs) -> ~ In "content" (keys kwargs) -> In (k, v) kwargs ->
  lookup k self' = Some v.
Proof.
  induction kwargs as [|[k' v'] kwargs IH]; simpl; intros self self' H Hnd Hc Hin.
  - contradiction.
  - destruct (setattr self k' v') as [self1|e] eqn:E; simpl in H; [|discriminate].
    inversion Hnd as [|? ? Hnotin Hnd']; subst.
    destruct Hin as [Heq|Hin].
    + inversion Heq; subst k' v'.
      rewrite (kwargs_lookup_other _ _ _ _ H) by tauto.
      unfold setattr in E.
      destruct (String.eqb k "content") eqn:Ek.
      * apply String.eqb_eq in Ek. tauto.
      * inversion E; subst. apply lookup_store_same.
    + apply (IH _ _ H); tauto.
Qed.

Lemma kwargs_total (kwargs : attrs) :
  forall self : attrs,
  ~ In "content" (keys kwargs) -> exists self', set_kwargs kwargs self = Ok self'.
Proof.
  induction kwargs as [|[k v] kwargs IH]; simpl; intros self Hc.
  - now exists self.
  - unfold setattr at 1.
    destruct (String.eqb k "content") eqn:Ek.
    + apply String.eqb_eq in Ek. tauto.
    + simpl. apply IH. tauto.
Qed.

(** The steps of [__init__], read off a successful run. *)
Lemma init_inv (now val : pyval) (self self' kwargs : attrs) :
  init now self val kwargs = Ok self' ->
  exists (self1 : attrs) (cwf : pyval),
    content_setter
      (store "client" PyNone
         (store "created" now (store "author" (PyStr (lit "anonymous")) self))) val
    = Ok self1
    /\ match py_str val with
       | Ok s => cwf = PyList (map PyStr (splitlines true s))
       | Raise e => e = ValueError /\ cwf = PyNone
       end
    /\ set_kwargs kwargs (store "content_with_format" cwf self1) = Ok self'.
Proof.
  unfold init. unfold setattr at 1 2 3 4; simpl.
  destruct (content_setter _ val) as [self1|e] eqn:E; simpl; [|discriminate].
  destruct (py_str val) as [s|e] eqn:Es.
  - unfold setattr at 1; simpl. intros H. now exists self1, (PyList (map PyStr (splitlines true s))).
  - destruct e; simpl; try discriminate.
    unfold setattr at 1; simpl. intros H. now exists self1, PyNone.
Qed.

Lemma new_inv (cls : msgclass) (now val m : pyval) (kwargs : attrs) :
  new cls now val kwargs = Ok m ->
  exists self, m = PyInst cls self /\ init now [] val kwargs = Ok self.
Proof.
  unfold new. destruct (init now [] val kwargs) as [self|e]; simpl; intros H.
  - inversion H. now exists self.
  - discriminate.
Qed.

Lemma content_setter_visible (self self' : attrs) (val : pyval) :
  content_setter self val = Ok self' -> visible_input val = true ->
  exists tok toks,
    lookup "_content" self' = Some (PyList (PyStr tok :: map PyStr toks)).
Proof.
  assert (Hsplit : forall s d, has_visible s = true ->
            exists tok toks,
              lookup "_content" (store "_content" (PyList (map PyStr (split s))) d)
              = Some (PyList (PyStr tok :: map PyStr toks))).
  { intros s d Hs. rewrite lookup_store_same.
    destruct (split s) as [|tok toks] eqn:E.
    - now apply split_visible in Hs.
    - now exists tok, toks. }
  assert (Hitems : forall xs d toks, xs <> [] -> mapM py_str xs = Ok toks ->
            exists tok toks',
              lookup "_content" (store "_content" (PyList (map PyStr toks)) d)
              = Some (PyList (PyStr tok :: map PyStr toks'))).
  { intros xs d toks Hxs Hm. rewrite lookup_store_same.
    destruct xs as [|x xs]; [contradiction|]. simpl in Hm.
    destruct (py_str x); simpl in Hm; [|discriminate].
    destruct (mapM py_str xs); simpl in Hm; [|discriminate].
    inversion Hm. now eexists _, _. }
  unfold content_setter. intros H Hv.
  destruct val as [|s|xs|xs|items|cls d|s r]; simpl in Hv.
  - inversion H. rewrite lookup_store_same. now exists (lit "None"), [].
  - inversion H. now apply Hsplit.
  - destruct (mapM py_str xs) as [toks|] eqn:E; simpl in H; [|discriminate].
    inversion H. apply (Hitems xs); [|exact E]. now destruct xs.
  - destruct (mapM py_str xs) as [toks|] eqn:E; simpl in H; [|discriminate].
    inversion H. apply (Hitems xs); [|exact E]. now destruct xs.
  - simpl in H.
    destruct (mapM _ items) as [rs|]; simpl in H; [|discriminate].
    inversion H. now apply Hsplit.
  - destruct (py_repr (PyInst cls d)) as [s|e] eqn:E;
      [|destruct (is_Exception e); discriminate].
    inversion H. apply Hsplit.
    simpl in E.
    repeat match type of E with
      | bind ?r _ = _ => destruct r; simpl in E; [|discriminate]
      end.
    inversion E. now destruct cls.
  - destruct r as [r|e]; [|discriminate].
    simpl in H. inversion H. now apply Hsplit.
Qed.

(** C5.  Whatever the shape of the input, a message that is constructed
    has as its tokens a [list] all of whose items are [str]: not the raw
    input and not [None].  (The keyword arguments may name any attribute
    but the slot [_content] in which the tokens are kept.) *)
Theorem tokens_are_strings
    (cls : msgclass) (now val m : pyval) (kwargs : attrs) :
  new cls now val kwargs = Ok m ->
  ~ In "_content" (keys kwargs) ->
  exists self c,
    m = PyInst cls self /\ content self = Ok c /\ is_str_list c = true.
Proof.
  intros H Hk. apply new_inv in H. destruct H as [self [-> H]].
  apply init_inv in H. destruct H as [self1 [cwf [Hset [_ Hkw]]]].
  apply content_setter_stores in Hset. destruct Hset as [toks ->].
  destruct (kwargs_keep_tokens _ _ _ Hkw Hk) as [c [Hc Hs]].
  - rewrite lookup_store_other by discriminate. rewrite lookup_store_same.
    eexists; split; [reflexivity | apply is_str_list_map_PyStr].
  - exists self, c. unfold content, getattr. now rewrite Hc.
Qed.

(** C6, as amended.  An input whose text shows something (a string with a
    character that is not whitespace, a list or tuple with an item,
    [None], a [dict], a message, an object whose representation has such
    a character) gives at least one token. *)
Theorem visible_input_has_tokens
    (cls : msgclass) (now val m : pyval) (kwargs : attrs) :
  new cls now val kwargs = Ok m ->
  visible_input val = true ->
  ~ In "_content" (keys kwargs) -> ~ In "content" (keys kwargs) ->
  exists self tok toks,
    m = PyInst cls self
    /\ content self = Ok (PyList (PyStr tok :: map PyStr toks)).
Proof.
  intros H Hv Hk Hc. apply new_inv in H. destruct H as [self [-> H]].
  apply init_inv in H. destruct H as [self1 [cwf [Hset [_ Hkw]]]].
  destruct (content_setter_visible _ _ _ Hset Hv) as [tok [toks Htok]].
  exists self, tok, toks. split; [reflexivity|].
  unfold content, getattr.
  rewrite (kwargs_lookup_other _ _ _ _ Hkw) by tauto.
  rewrite lookup_store_other by discriminate. now rewrite Htok.
Qed.

(** C7, as amended.  [content_with_format] holds the lines, each with its
    terminator, of [str(content)], whatever the shape of the input: for
    a string these are the lines of the string itself.  It is [None] only
    when [str(content)] raises a [ValueError]. *)
Theorem content_with_format_is_lines_of_str
    (cls : msgclass) (now val m : pyval) (kwargs : attrs) :
  new cls now val kwargs = Ok m ->
  ~ In "content_with_format" (keys kwargs) ->
  exists self,
    m = PyInst cls self
    /\ match py_str val with
       | Ok s =>
           getattr self "content_with_format"
           = Ok (PyList (map PyStr (splitlines true s)))
           /\ List.concat (splitlines true s) = s
       | Raise e =>
           e = ValueError /\ getattr self "content_with_format" = Ok PyNone
       end.
Proof.
  intros H Hk. apply new_inv in H. destruct H as [self [-> H]].
  apply init_inv in H. destruct H as [self1 [cwf [_ [Hcwf Hkw]]]].
  exists self. split; [reflexivity|].
  assert (Hget : getattr self "content_with_format" = Ok cwf).
  { unfold getattr.
    rewrite (kwargs_lookup_other _ _ _ _ Hkw) by (try tauto; discriminate).
    now rewrite lookup_store_same. }
  destruct (py_str val) as [s|e].
  - subst cwf. split; [exact Hget | apply splitlines_concat].
  - destruct Hcwf as [-> ->]. now split.
Qed.

(** C8 (fails on the code).  Only the last branch of the setter turns a
    failure of [repr] into a [TypeError].  An exception raised by [str]
    on an item of a list, or by [str(content)] in [__init__] unless it is
    a [ValueError], reaches the caller as it is. *)
Theorem construction_raises_other_errors (cls : msgclass) (now : pyval) :
  new cls now (PyList [unprintable]) [] = Raise RuntimeError
  /\ new cls now unprintable [] = Raise RuntimeError
  /\ forall (s : res pystr) (e : exn) (kwargs : attrs),
       new cls now (PyObj s (Raise e)) kwargs
       = Raise (if is_Exception e then TypeError else e).
Proof.
  repeat split.
  intros s e kwargs. unfold new, init. unfold setattr at 1 2 3 4. simpl.
  now destruct (is_Exception e).
Qed.

(** C9.  A message constructed from a string [s] gives back exactly [s]
    from [as_str(sanitized=False)]. *)
Theorem as_str_round_trip
    (cls : msgclass) (now : pyval) (s : pystr) (kwargs : attrs) :
  ~ In "content" (keys kwargs) ->
  ~ In "content_with_format" (keys kwargs) ->
  exists self,
    new cls now (PyStr s) kwargs = Ok (PyInst cls self)
    /\ as_str self false = Ok s.
Proof.
  intros Hc Hk. unfold new, init. unfold setattr at 1 2 3 4 5. simpl.
  match goal with
  | |- context [set_kwargs kwargs ?d] =>
      destruct (kwargs_total kwargs d Hc) as [self Hkw]
  end.
  rewrite Hkw. simpl. exists self. split; [reflexivity|].
  unfold as_str, getattr.
  rewrite (kwargs_lookup_other _ _ _ _ Hkw) by (try tauto; discriminate).
  cbn [lookup store String.eqb Ascii.eqb Bool.eqb bind].
  rewrite str_join_strs, join_empty_concat. now rewrite splitlines_concat.
Qed.

(** C10.  The keyword arguments are set after the core fields: on the
    constructed instance every keyword argument has the value the caller
    gave, also when it names a core field, and [author] and [client]
    keep their defaults only when no keyword argument names them. *)
Theorem kwargs_override_core_fields
    (cls : msgclass) (now val m : pyval) (kwargs : attrs) :
  new cls now val kwargs = Ok m ->
  NoDup (keys kwargs) -> ~ In "content" (keys kwargs) ->
  exists self,
    m = PyInst cls self
    /\ (forall k v, In (k, v) kwargs -> getattr self k = Ok v)
    /\ (~ In "author" (keys kwargs) ->
        getattr self "author" = Ok (PyStr (lit "anonymous")))
    /\ (~ In "client" (keys kwargs) -> getattr self "client" = Ok PyNone).
Proof.
  intros H Hnd Hc. apply new_inv in H. destruct H as [self [-> H]].
  apply init_inv in H. destruct H as [self1 [cwf [Hset [_ Hkw]]]].
  apply content_setter_stores in Hset. destruct Hset as [toks ->].
  exists self. split; [reflexivity|]. unfold getattr. repeat split.
  - intros k v Hin. now rewrite (kwargs_lookup_in _ _ _ _ _ Hkw Hnd Hc Hin).
  - intros Ha. rewrite (kwargs_lookup_other _ _ _ _ Hkw) by (try tauto; discriminate).
    reflexivity.
  - intros Ha. rewrite (kwargs_lookup_other _ _ _ _ Hkw) by (try tauto; discriminate).
    reflexivity.
Qed.

End MessageFacts.

(** ** The claims on concrete inputs *)

Section Samples.
Local Open Scope string_scope.
Local Existing Instance ascii_builtins.

Example tokens_of_None :
  new Message noon PyNone []
  = Ok (PyInst Message
          [("author", PyStr (lit "anonymous")); ("created", noon);
           ("client", PyNone); ("_content", PyList [PyStr (lit "None")]);
           ("content_with_format", PyList [PyStr (lit "None")])]).
Proof. reflexivity. Qed.

Example tokens_of_hello_world :
  bind (init noon [] (PyStr (lit "hello   world")) []) content
  = Ok (PyList [PyStr (lit "hello"); PyStr (lit "world")]).
Proof. reflexivity. Qed.

Example sanitized_tokens :
  sanitized_content [("_content", PyList [PyStr (lit "Hi!"); PyStr (lit "there?")])] false
  = Ok [lit "hi"; lit "there"]
  /\ sanitized_content [("_content", PyList [PyStr (lit "Hi!"); PyStr (lit "there?")])] true
     = Ok [lit "Hi"; lit "there"].
Proof. split; reflexivity. Qed.

Example as_str_sanitized :
  as_str [("_content", PyList [PyStr (lit "a,"); PyStr (lit "b.")]);
          ("content_with_format", PyNone)] true
  = Ok (lit "a b").
Proof. reflexivity. Qed.

(** A list with a string and [None], and a keyword argument. *)
Lemma tokens_are_strings_witness :
  ~ In "_content" (keys [("author", PyStr (lit "bot"))])
  /\ exists self c,
       new Message noon (PyList [PyStr (lit "a b"); PyNone])
         [("author", PyStr (lit "bot"))]
       = Ok (PyInst Message self)
       /\ content self = Ok c /\ is_str_list c = true.
Proof.
  assert (Hk : ~ In "_content" (keys [("author", PyStr (lit "bot"))])).
  { simpl. intros [H|[]]. discriminate H. }
  split; [exact Hk|].
  edestruct (tokens_are_strings Message noon (PyList [PyStr (lit "a b"); PyNone])
               _ [("author", PyStr (lit "bot"))] eq_refl Hk)
    as [self [c [Hm [Hc Hs]]]].
  exists self, c. rewrite <- Hm. repeat split; assumption.
Defined.

(** C6 as stated fails: a string of one space is not empty and gives no
    token. *)
Lemma whitespace_string_has_no_tokens :
  lit " " <> []
  /\ exists self,
       new Message noon (PyStr (lit " ")) [] = Ok (PyInst Message self)
       /\ content self = Ok (PyList []).
Proof.
  split; [discriminate|].
  eexists. split; reflexivity.
Qed.

Lemma visible_input_has_tokens_witness :
  visible_input (PyStr (lit "hello   world")) = true
  /\ exists self tok toks,
       new Reply noon (PyStr (lit "hello   world")) [] = Ok (PyInst Reply self)
       /\ content self = Ok (PyList (PyStr tok :: map PyStr toks)).
Proof.
  split; [reflexivity|].
  edestruct (visible_input_has_tokens Reply noon (PyStr (lit "hello   world")) _ []
               eq_refl eq_refl)
    as [self [tok [toks [Hm Hc]]]].
  - simpl. tauto.
  - simpl. tauto.
  - exists self, tok, toks. rewrite <- Hm. split; [reflexivity | exact Hc].
Defined.

(** C7 as stated fails: without content, [content_with_format] is set, to
    the one line of [str(None)]. *)
Lemma content_with_format_set_without_content :
  exists self,
    new Message noon PyNone [] = Ok (PyInst Message self)
    /\ getattr self "content_with_format" = Ok (PyList [PyStr (lit "None")])
    /\ PyList [PyStr (lit "None")] <> PyNone.
Proof.
  eexists. repeat split. discriminate.
Qed.

Lemma content_with_format_is_lines_of_str_witness :
  ~ In "content_with_format" (keys [])
  /\ exists self,
       new Message noon (PyStr two_lines) [] = Ok (PyInst Message self)
       /\ getattr self "content_with_format"
          = Ok (PyList [PyStr (lit "line1" ++ [LF])%list; PyStr (lit "line2" ++ [LF])%list]).
Proof.
  assert (Hk : ~ In "content_with_format" (keys [])) by (simpl; tauto).
  split; [exact Hk|].
  edestruct (content_with_format_is_lines_of_str Message noon (PyStr two_lines) _ []
               eq_refl Hk)
    as [self [Hm [Hget _]]].
  exists self. rewrite <- Hm. split; [reflexivity | exact Hget].
Defined.

Lemma as_str_round_trip_witness :
  ~ In "content" (keys [("author", PyStr (lit "bot"))])
  /\ ~ In "content_with_format" (keys [("author", PyStr (lit "bot"))])
  /\ exists self,
       new Message noon (PyStr two_lines) [("author", PyStr (lit "bot"))]
       = Ok (PyInst Message self)
       /\ as_str self false = Ok two_lines.
Proof.
  assert (Hc : ~ In "content" (keys [("author", PyStr (lit "bot"))])).
  { simpl. intros [H|[]]. discriminate H. }
  assert (Hk : ~ In "content_with_format" (keys [("author", PyStr (lit "bot"))])).
  { simpl. intros [H|[]]. discriminate H. }
  repeat split; [exact Hc | exact Hk |].
  exact (as_str_round_trip Message noon two_lines [("author", PyStr (lit "bot"))] Hc Hk).
Defined.

Lemma kwargs_override_core_fields_witness :
  NoDup (keys [("author", PyStr (lit "bot")); ("client", PyStr (lit "discord"))])
  /\ ~ In "content" (keys [("author", PyStr (lit "bot")); ("client", PyStr (lit "discord"))])
  /\ exists self,
       new Message noon (PyStr (lit "hi"))
         [("author", PyStr (lit "bot")); ("client", PyStr (lit "discord"))]
       = Ok (PyInst Message self)
       /\ getattr self "author" = Ok (PyStr (lit "bot"))
       /\ getattr self "client" = Ok (PyStr (lit "discord")).
Proof.
  assert (Hnd : NoDup (keys [("author", PyStr (lit "bot"));
                             ("client", PyStr (lit "discord"))])).
  { simpl. repeat constructor; simpl; intros H; repeat destruct H as [H|H];
      try discriminate H; exact H. }
  assert (Hc : ~ In "content" (keys [("author", PyStr (lit "bot"));
                                     ("client", PyStr (lit "discord"))])).
  { simpl. intros H; repeat destruct H as [H|H]; try discriminate H; exact H. }
  repeat split; [exact Hnd | exact Hc |].
  edestruct (kwargs_override_core_fields Message noon (PyStr (lit "hi")) _
               [("author", PyStr (lit "bot")); ("client", PyStr (lit "discord"))]
               eq_refl Hnd Hc)
    as [self [Hm [Hkw _]]].
  exists self. rewrite <- Hm. split; [reflexivity|].
  split; apply Hkw; simpl; tauto.
Defined.

End Samples.

(** ** The derived views of a message *)

Lemma is_str_list_inv (c : pyval) :
  is_str_list c = true -> exists toks, c = PyList (map PyStr toks).
Proof.
  destruct c as [| |xs| | | |]; simpl; try discriminate.
  induction xs as [|x xs IH]; simpl; intros H.
  - now exists [].
  - apply andb_true_iff in H. destruct H as [Hx Hxs].
    destruct (IH Hxs) as [toks Htoks]. inversion Htoks as [Heq].
    destruct x; try discriminate. now exists (s :: toks).
Qed.

Lemma mapM_on_strs {B : Type} (g : pyval -> res B) (h : pystr -> B) (toks : list pystr) :
  (forall s, g (PyStr s) = Ok (h s)) ->
  mapM g (map PyStr toks) = Ok (map h toks).
Proof.
  intros Hg. induction toks as [|t toks IH]; simpl; [reflexivity|].
  now rewrite Hg, IH.
Qed.

Section Views.
Context {builtins : Builtins}.

Local Open Scope string_scope.

Lemma new_init (cls : msgclass) (now val : pyval) (self kwargs : attrs) :
  new cls now val kwargs = Ok (PyInst cls self) ->
  init now [] val kwargs = Ok self.
Proof.
  intros H. apply new_inv in H. destruct H as [self' [Heq H]].
  now inversion Heq.
Qed.

(** The tokens of a constructed message, as strings. *)
Lemma message_tokens (cls : msgclass) (now val : pyval) (self kwargs : attrs) :
  new cls now val kwargs = Ok (PyInst cls self) ->
  ~ In "_content" (keys kwargs) ->
  exists toks, lookup "_content" self = Some (PyList (map PyStr toks)).
Proof.
  intros H Hk. apply new_init in H.
  apply init_inv in H. destruct H as [self1 [cwf [Hset [_ Hkw]]]].
  apply content_setter_stores in Hset. destruct Hset as [toks0 ->].
  destruct (kwargs_keep_tokens _ _ _ Hkw Hk) as [c [Hc Hs]].
  - rewrite lookup_store_other by discriminate. rewrite lookup_store_same.
    eexists; split; [reflexivity | apply is_str_list_map_PyStr].
  - apply is_str_list_inv in Hs. destruct Hs as [toks ->]. now exists toks.
Qed.

(** The tokens when no keyword argument can have replaced them. *)
Lemma message_tokens_of_setter
    (cls : msgclass) (now val : pyval) (self kwargs : attrs) :
  new cls now val kwargs = Ok (PyInst cls self) ->
  ~ In "_content" (keys kwargs) -> ~ In "content" (keys kwargs) ->
  exists self0 self1,
    content_setter self0 val = Ok self1
    /\ lookup "_content" self = lookup "_content" self1.
Proof.
  intros H Hk Hc. apply new_init in H.
  apply init_inv in H. destruct H as [self1 [cwf [Hset [_ Hkw]]]].
  eexists _, self1. split; [exact Hset|].
  rewrite (kwargs_lookup_other _ _ _ _ Hkw) by tauto.
  now rewrite lookup_store_other by discriminate.
Qed.




Lemma strip_symbols_clean (s : pystr) :
  forallb (fun c => isalnum c || N.eqb c 95 || isspace c) (strip_symbols s) = true.
Proof.
  unfold strip_symbols. apply forallb_forall. intros c Hc.
  now apply filter_In in Hc.
Qed.

Lemma strip_symbols_idempotent (s : pystr) :
  strip_symbols (strip_symbols s) = strip_symbols s.
Proof.
  unfold strip_symbols. induction s as [|c s IH]; simpl; [reflexivity|].
  destruct (isalnum c || N.eqb c 95 || isspace c) eqn:E; simpl.
  - now rewrite E, IH.
  - exact IH.
Qed.

(** X3.  Whatever the instance holds, what [sanitized_content] returns
    with the case preserved has only word characters (alphanumeric or
    underscore) and whitespace, and sanitizing it again changes nothing. *)
Theorem sanitized_content_has_no_symbols (self : attrs) (out : list pystr) :
  sanitized_content self true = Ok out ->
  Forall (fun t =>
            forallb (fun c => isalnum c || N.eqb c 95 || isspace c) t = true
            /\ strip_symbols t = t) out.
Proof.
  unfold sanitized_content.
  destruct (content self) as [c|]; simpl; [|discriminate].
  destruct (iterate c) as [items|]; simpl; [|discriminate].
  revert out. induction items as [|i items IH]; simpl; intros out H.
  - inversion H. constructor.
  - destruct i; simpl in H; try discriminate.
    destruct (mapM _ items) as [rest|]; simpl in H; [|discriminate].
    inversion H. constructor.
    + split; [apply strip_symbols_clean | apply strip_symbols_idempotent].
    + now apply IH.
Qed.


Lemma message_format (cls : msgclass) (now val : pyval) (self kwargs : attrs) :
  new cls now val kwargs = Ok (PyInst cls self) ->
  ~ In "content_with_format" (keys kwargs) ->
  lookup "content_with_format" self
  = Some (match py_str val with
          | Ok s => PyList (map PyStr (splitlines true s))
          | Raise _ => PyNone
          end)
  /\ forall e, py_str val = Raise e -> e = ValueError.
Proof.
  intros H Hk. apply new_init in H.
  apply init_inv in H. destruct H as [self1 [cwf [_ [Hcwf Hkw]]]].
  rewrite (kwargs_lookup_other _ _ _ _ Hkw) by (try tauto; discriminate).
  rewrite lookup_store_same.
  destruct (py_str val) as [s|e].
  - subst cwf. split; [reflexivity | discriminate].
  - destruct Hcwf as [-> ->]. split; [reflexivity|]. now intros e [= <-].
Qed.

Lemma as_str_of_lines (self : attrs) (s : pystr) :
  lookup "content_with_format" self = Some (PyList (map PyStr (splitlines true s))) ->
  as_str self false = Ok s.
Proof.
  intros H. unfold as_str, getattr. rewrite H. cbn [bind].
  rewrite str_join_strs, join_empty_concat. now rewrite splitlines_concat.
Qed.

(** X5.  For an input of any shape, [as_str()] of the constructed message
    is [str(content)], the text of the input as it was given, and not the
    tokens joined by spaces. *)
Theorem as_str_is_str_of_content
    (cls : msgclass) (now val : pyval) (self kwargs : attrs) (s : pystr) :
  new cls now val kwargs = Ok (PyInst cls self) ->
  ~ In "content_with_format" (keys kwargs) ->
  py_str val = Ok s ->
  as_str self false = Ok s.
Proof.
  intros H Hk Hs. destruct (message_format _ _ _ _ _ H Hk) as [Hcwf _].
  rewrite Hs in Hcwf. now apply as_str_of_lines.
Qed.

(** X6.  When [str(content)] raised and the message was constructed all
    the same, the exception was a [ValueError], [content_with_format] is
    [None], and [as_str()] is the tokens joined by single spaces. *)
Theorem as_str_falls_back_to_tokens
    (cls : msgclass) (now val : pyval) (self kwargs : attrs) (e : exn) :
  new cls now val kwargs = Ok (PyInst cls self) ->
  ~ In "content_with_format" (keys kwargs) ->
  ~ In "_content" (keys kwargs) ->
  py_str val = Raise e ->
  e = ValueError
  /\ getattr self "content_with_format" = Ok PyNone
  /\ exists toks,
       content self = Ok (PyList (map PyStr toks))
       /\ as_str self false = Ok (join (lit " ") toks).
Proof.
  intros H Hk Hc He. destruct (message_format _ _ _ _ _ H Hk) as [Hcwf Hval].
  rewrite He in Hcwf.
  destruct (message_tokens _ _ _ _ _ H Hc) as [toks Htoks].
  split; [now apply Hval|].
  split; [unfold getattr; now rewrite Hcwf|].
  exists toks. unfold as_str, content, getattr. rewrite Hcwf, Htoks. cbn [bind].
  split; [reflexivity | apply str_join_strs].
Qed.

(** X7.  Assigning new content to a message replaces its tokens and leaves
    [content_with_format] as it was: [as_str()] still gives the text the
    message was constructed from. *)
Theorem content_assignment_keeps_old_text
    (cls : msgclass) (now val : pyval) (self kwargs : attrs) (s s2 : pystr) :
  new cls now val kwargs = Ok (PyInst cls self) ->
  ~ In "content_with_format" (keys kwargs) ->
  py_str val = Ok s ->
  exists self',
    setattr self "content" (PyStr s2) = Ok self'
    /\ content self' = Ok (PyList (map PyStr (split s2)))
    /\ as_str self' false = Ok s.
Proof.
  intros H Hk Hs. destruct (message_format _ _ _ _ _ H Hk) as [Hcwf _].
  rewrite Hs in Hcwf.
  eexists. split; [reflexivity|]. split.
  - unfold content, getattr. now rewrite lookup_store_same.
  - apply as_str_of_lines. now rewrite lookup_store_other by discriminate.
Qed.

(** X8.  [repr] of a message constructed without keyword arguments never
    fails when the time stamp can be printed: it is the class name, the
    author [anonymous], the time stamp, and the list of the tokens, each
    token as [repr] shows a string. *)
Theorem repr_of_new_message
    (cls : msgclass) (now val : pyval) (self : attrs) (c : pystr) :
  new cls now val [] = Ok (PyInst cls self) ->
  py_str now = Ok c ->
  exists toks,
    content self = Ok (PyList (map PyStr toks))
    /\ py_repr (PyInst cls self)
       = Ok (class_name cls ++ lit "(author=" ++ lit "anonymous"
               ++ lit ", created=" ++ c
               ++ lit ", content=" ++ (lit "[" ++ join (lit ", ") (map str_repr toks) ++ lit "]")
               ++ lit ")")%list.
Proof.
  intros H Hc. apply new_init in H.
  apply init_inv in H. destruct H as [self1 [cwf [Hset [_ Hkw]]]].
  apply content_setter_stores in Hset. destruct Hset as [toks ->].
  simpl in Hkw. inversion Hkw as [Hself]. clear Hkw.
  exists toks. split; [reflexivity|].
  cbn [py_repr String.eqb Ascii.eqb Bool.eqb bind].
  change (match now with
          | PyStr s => Ok s
          | PyObj s _ => s
          | _ => py_repr now
          end) with (py_str now).
  rewrite Hc. cbn [bind].
  rewrite (mapM_on_strs py_repr str_repr toks) by reflexivity.
  reflexivity.
Qed.

End Views.

(** ** Tokens of strings and of sequences *)

Lemma is_token_rev (c : codepoint) (cur : pystr) :
  forallb (fun c => negb (isspace c)) (c :: cur) = true ->
  is_token (rev (c :: cur)) = true.
Proof.
  intros H. unfold is_token.
  destruct (rev (c :: cur)) as [|d t] eqn:E.
  - apply (f_equal (@List.length _)) in E. rewrite length_rev in E. discriminate.
  - rewrite <- E. apply forallb_forall. intros x Hx. apply in_rev in Hx.
    now apply (proj1 (forallb_forall _ _) H).
Qed.

Lemma split_from_tokens (s cur : pystr) :
  forallb (fun c => negb (isspace c)) cur = true ->
  Forall (fun t => is_token t = true) (split_from cur s).
Proof.
  revert cur; induction s as [|c s IH]; intros cur Hcur; simpl.
  - destruct cur as [|d cur]; constructor; [now apply is_token_rev | constructor].
  - destruct (isspace c) eqn:E.
    + destruct cur as [|d cur]; [now apply IH|].
      constructor; [now apply is_token_rev | now apply IH].
    + apply IH. simpl. now rewrite E.
Qed.

Lemma split_tokens (s : pystr) : Forall (fun t => is_token t = true) (split s).
Proof. now apply split_from_tokens. Qed.

Lemma split_blank (s : pystr) : has_visible s = false -> split s = [].
Proof.
  unfold split. induction s as [|c s IH]; simpl; intros H; [reflexivity|].
  apply orb_false_iff in H. destruct H as [Hc Hs].
  apply negb_false_iff in Hc. rewrite Hc. now apply IH.
Qed.

Lemma split_nil_iff (s : pystr) : split s = [] <-> has_visible s = false.
Proof.
  split; [|apply split_blank].
  intros H. destruct (has_visible s) eqn:E; [|reflexivity].
  now apply split_visible in E.
Qed.

Lemma split_from_token_prefix (t s cur : pystr) :
  forallb (fun c => negb (isspace c)) t = true ->
  split_from cur (t ++ s) = split_from (rev t ++ cur) s.
Proof.
  revert cur; induction t as [|c t IH]; intros cur H; simpl in *; [reflexivity|].
  apply andb_true_iff in H. destruct H as [Hc Ht].
  apply negb_true_iff in Hc. rewrite Hc.
  rewrite IH by exact Ht. now rewrite <- app_assoc.
Qed.

Lemma is_token_inv (t : pystr) :
  is_token t = true ->
  t <> [] /\ forallb (fun c => negb (isspace c)) t = true.
Proof. destruct t; simpl; [discriminate|]. intros H. split; [discriminate | exact H]. Qed.

Lemma split_from_one_token (t : pystr) :
  is_token t = true -> split_from (rev t) [] = [t].
Proof.
  intros H. apply is_token_inv in H. destruct H as [Hne _]. simpl.
  destruct (rev t) as [|c r] eqn:E.
  - apply (f_equal (@List.length _)) in E. rewrite length_rev in E.
    destruct t; [contradiction | discriminate].
  - rewrite <- E. now rewrite rev_involutive.
Qed.

Lemma split_join (toks : list pystr) :
  Forall (fun t => is_token t = true) toks ->
  split (join (lit " ") toks) = toks.
Proof.
  unfold split. induction toks as [|t [|t2 toks] IH]; intros H.
  - reflexivity.
  - inversion H as [|? ? Ht _]; subst. simpl.
    rewrite <- (app_nil_r t) at 1.
    rewrite split_from_token_prefix by (now apply is_token_inv).
    rewrite app_nil_r. now apply split_from_one_token.
  - inversion H as [|? ? Ht Hrest]; subst.
    change (join (lit " ") (t :: t2 :: toks))
      with (t ++ lit " " ++ join (lit " ") (t2 :: toks)).
    rewrite split_from_token_prefix by (now apply is_token_inv).
    rewrite app_nil_r.
    change (lit " " ++ join (lit " ") (t2 :: toks))
      with (32%N :: join (lit " ") (t2 :: toks)).
    cbn [split_from]. change (isspace 32%N) with true. cbv iota.
    pose proof (split_from_one_token t Ht) as Hone. simpl in Hone.
    destruct (rev t) as [|c r] eqn:E; [discriminate|].
    rewrite IH by exact Hrest. f_equal.
    now inversion Hone.
Qed.

Lemma splitlines_from_nonempty (s cur : pystr) :
  Forall (fun l => l <> []) (splitlines_from true cur s).
Proof.
  assert (Hrev : forall (c : codepoint) l, rev (c :: l) <> []).
  { intros c l E. apply (f_equal (@List.length _)) in E.
    rewrite length_rev in E. discriminate. }
  assert (H : forall n s cur, List.length s <= n ->
                Forall (fun l => l <> []) (splitlines_from true cur s)).
  { clear s cur. induction n as [|n IH]; intros s cur Hn.
    - destruct s; [|simpl in Hn; lia]. cbn [splitlines_from].
      destruct cur; constructor; [apply Hrev | constructor].
    - destruct s as [|c s]; cbn [splitlines_from].
      + destruct cur; constructor; [apply Hrev | constructor].
      + simpl in Hn. destruct (islinebreak c).
        * destruct s as [|c' s].
          -- constructor; [apply Hrev | constructor].
          -- simpl in Hn.
             destruct ((c =? CR)%N && (c' =? LF)%N);
               (constructor; [apply Hrev | apply IH; simpl; lia]).
        * apply IH. lia. }
  apply (H (List.length s)). lia.
Qed.

Lemma mapM_length {A B : Type} (f : A -> res B) (xs : list A) (ys : list B) :
  mapM f xs = Ok ys -> List.length ys = List.length xs.
Proof.
  revert ys; induction xs as [|x xs IH]; simpl; intros ys H.
  - now inversion H.
  - destruct (f x); simpl in H; [|discriminate].
    destruct (mapM f xs) as [ys'|]; simpl in H; [|discriminate].
    inversion H. simpl. now rewrite (IH ys').
Qed.

Section Tokens.
Context {builtins : Builtins}.

Local Open Scope string_scope.

Lemma string_message_tokens
    (cls : msgclass) (now : pyval) (s : pystr) (self kwargs : attrs) :
  new cls now (PyStr s) kwargs = Ok (PyInst cls self) ->
  ~ In "_content" (keys kwargs) -> ~ In "content" (keys kwargs) ->
  content self = Ok (PyList (map PyStr (split s))).
Proof.
  intros H Hk Hc.
  destruct (message_tokens_of_setter _ _ _ _ _ H Hk Hc) as [self0 [self1 [Hset Hl]]].
  unfold content, getattr. rewrite Hl. simpl in Hset. inversion Hset.
  now rewrite lookup_store_same.
Qed.

(** X9.  The tokens of a message constructed from a string are the runs
    of the string between whitespace: no token is empty and no token has
    a whitespace character. *)
Theorem string_tokens_are_clean
    (cls : msgclass) (now : pyval) (s : pystr) (self kwargs : attrs) :
  new cls now (PyStr s) kwargs = Ok (PyInst cls self) ->
  ~ In "_content" (keys kwargs) -> ~ In "content" (keys kwargs) ->
  exists toks,
    content self = Ok (PyList (map PyStr toks))
    /\ Forall (fun t => t <> [] /\ forallb (fun c => negb (isspace c)) t = true) toks.
Proof.
  intros H Hk Hc. exists (split s).
  split; [now apply (string_message_tokens cls now s self kwargs)|].
  eapply Forall_impl; [|apply split_tokens].
  intros t Ht. now apply is_token_inv.
Qed.

(** X10.  A message constructed from a string has no token at all exactly
    when the string has no character other than whitespace (the empty
    string included). *)
Theorem string_tokens_empty_iff_blank
    (cls : msgclass) (now : pyval) (s : pystr) (self kwargs : attrs) :
  new cls now (PyStr s) kwargs = Ok (PyInst cls self) ->
  ~ In "_content" (keys kwargs) -> ~ In "content" (keys kwargs) ->
  (content self = Ok (PyList []) <-> forallb isspace s = true).
Proof.
  intros H Hk Hc.
  rewrite (string_message_tokens cls now s self kwargs H Hk Hc).
  assert (Hb : has_visible s = false <-> forallb isspace s = true).
  { clear. unfold has_visible. induction s as [|c s IH]; simpl; [tauto|].
    rewrite orb_false_iff, andb_true_iff, negb_false_iff. tauto. }
  rewrite <- Hb, <- split_nil_iff. split.
  - intros E. inversion E as [E']. now destruct (split s).
  - now intros ->.
Qed.

(** X11.  Tokenizing is stable: a message constructed from the tokens of a
    string message joined by single spaces has the same tokens. *)
Theorem joined_tokens_give_same_tokens (cls : msgclass) (now : pyval) (s : pystr) :
  exists self toks self2,
    new cls now (PyStr s) [] = Ok (PyInst cls self)
    /\ content self = Ok (PyList (map PyStr toks))
    /\ new cls now (PyStr (join (lit " ") toks)) [] = Ok (PyInst cls self2)
    /\ content self2 = content self.
Proof.
  eexists _, (split s), _. repeat split.
  unfold content, getattr; simpl.
  now rewrite (split_join (split s) (split_tokens s)).
Qed.

(** X12.  The tokens of a message constructed from a list or a tuple are
    [str] of its items, one token for each item and in their order. *)
Theorem sequence_tokens
    (cls : msgclass) (now val : pyval) (xs : list pyval) (self kwargs : attrs) :
  val = PyList xs \/ val = PyTuple xs ->
  new cls now val kwargs = Ok (PyInst cls self) ->
  ~ In "_content" (keys kwargs) -> ~ In "content" (keys kwargs) ->
  exists toks,
    mapM py_str xs = Ok toks
    /\ content self = Ok (PyList (map PyStr toks))
    /\ List.length toks = List.length xs.
Proof.
  intros Hval H Hk Hc.
  destruct (message_tokens_of_setter _ _ _ _ _ H Hk Hc) as [self0 [self1 [Hset Hl]]].
  assert (Hset' : bind (mapM py_str xs)
                    (fun toks => Ok (store "_content" (PyList (map PyStr toks)) self0))
                  = Ok self1).
  { destruct Hval as [-> | ->]; exact Hset. }
  destruct (mapM py_str xs) as [toks|] eqn:E; simpl in Hset'; [|discriminate].
  exists toks. split; [reflexivity|]. split.
  - unfold content, getattr. rewrite Hl. inversion Hset'.
    now rewrite lookup_store_same.
  - now apply (mapM_length py_str xs).
Qed.

(** X13.  [content_with_format] never holds an empty line: each of its
    lines has a character, and they are the lines of [str(content)]. *)
Theorem content_with_format_has_no_empty_line
    (cls : msgclass) (now val : pyval) (self kwargs : attrs) (s : pystr) :
  new cls now val kwargs = Ok (PyInst cls self) ->
  ~ In "content_with_format" (keys kwargs) ->
  py_str val = Ok s ->
  exists lines,
    getattr self "content_with_format" = Ok (PyList (map PyStr lines))
    /\ Forall (fun l => l <> []) lines
    /\ (lines = [] <-> s = []).
Proof.
  intros H Hk Hs. destruct (message_format _ _ _ _ _ H Hk) as [Hcwf _].
  rewrite Hs in Hcwf. exists (splitlines true s).
  split; [unfold getattr; now rewrite Hcwf|].
  split; [apply splitlines_from_nonempty|].
  split.
  - intros E. rewrite <- (splitlines_concat s). now rewrite E.
  - now intros ->.
Qed.

End Tokens.

(** ** More on construction and on the queue *)

Lemma forallb_is_str_inv (xs : list pyval) :
  forallb is_str xs = true -> exists ss, xs = map PyStr ss.
Proof.
  intros H. destruct (is_str_list_inv (PyList xs) H) as [ss Hss].
  inversion Hss. now exists ss.
Qed.

Section Construction.
Context {builtins : Builtins}.

Local Open Scope string_scope.

Lemma plain_text_renders (val : pyval) :
  plain_text val = true ->
  (exists s, py_str val = Ok s)
  /\ forall self, exists self', content_setter self val = Ok self'.
Proof.
  destruct val as [|s|xs|xs| | |]; simpl; try discriminate; intros H.
  - split; eauto.
  - split; eauto.
  - apply forallb_is_str_inv in H. destruct H as [ss ->].
    rewrite (mapM_on_strs py_repr str_repr ss) by reflexivity.
    rewrite (mapM_on_strs py_str (fun s => s) ss) by reflexivity.
    simpl. split; eauto.
  - apply forallb_is_str_inv in H. destruct H as [ss ->].
    rewrite (mapM_on_strs py_repr str_repr ss) by reflexivity.
    rewrite (mapM_on_strs py_str (fun s => s) ss) by reflexivity.
    simpl. split; [|eauto]. destruct (map str_repr ss) as [|r [|r2 rs]]; eauto.
Qed.

(** X14.  Constructing a message from plain text ([None], a string, a
    list or tuple of strings) without keyword arguments never raises,
    whatever the time stamp is. *)
Theorem construction_from_plain_text_succeeds
    (cls : msgclass) (now val : pyval) :
  plain_text val = true ->
  exists self, new cls now val [] = Ok (PyInst cls self).
Proof.
  intros Hp. destruct (plain_text_renders val Hp) as [[s Hs] Hset].
  unfold new, init. unfold setattr at 1 2 3 4. cbn [String.eqb Ascii.eqb Bool.eqb bind].
  match goal with
  | |- context [content_setter ?d val] => destruct (Hset d) as [self1 Hself1]
  end.
  rewrite Hself1, Hs. cbn [bind]. unfold setattr at 1.
  cbn [String.eqb Ascii.eqb Bool.eqb bind foldM]. eauto.
Qed.

(** X15.  On a buffer that is not empty, a [put] and a [get] commute:
    the [get] returns what it would have returned before the [put] and
    the new payload is behind the payloads that were there. *)
Theorem get_put_commute
    (now : pyval) (block : bool) (timeout : option N)
    (p : pyval) (self : ReplyStream) :
  queue self <> [] ->
  get now block timeout (put p self)
  = (fst (get now block timeout self), put p (snd (get now block timeout self))).
Proof.
  destruct self as [[|h q] n]; cbn [queue]; [contradiction|]. intros _.
  unfold put, _put. cbn [queue unfinished_tasks app].
  rewrite !get_on_head. reflexivity.
Qed.

(** X16.  [get] takes the head payload off the buffer before it converts
    it: when [Reply(payload)] raises, the exception reaches the caller,
    the payload is gone and the other payloads stay in their order. *)
Theorem get_drops_payload_when_conversion_fails
    (now : pyval) (block : bool) (timeout : option N)
    (p : pyval) (q : list pyval) (n : nat) (e : exn) :
  isinstance_Reply p = false ->
  new Reply now p [] = Raise e ->
  get now block timeout {| queue := p :: q; unfinished_tasks := n |}
  = (Raise e, {| queue := q; unfinished_tasks := n |}).
Proof.
  intros Hp He. rewrite get_on_head. now rewrite Hp, He.
Qed.

(** X17.  A string at the head of the buffer comes back from [get] as a
    [Reply] by the author [anonymous], whose tokens are the tokens of the
    string and whose [as_str()] is the string. *)
Theorem get_string_payload
    (now : pyval) (block : bool) (timeout : option N)
    (s : pystr) (q : list pyval) (n : nat) :
  exists self,
    get now block timeout {| queue := PyStr s :: q; unfinished_tasks := n |}
    = (Ok (PyInst Reply self), {| queue := q; unfinished_tasks := n |})
    /\ content self = Ok (PyList (map PyStr (split s)))
    /\ as_str self false = Ok s
    /\ getattr self "author" = Ok (PyStr (lit "anonymous")).
Proof.
  rewrite get_on_head. cbn [isinstance_Reply].
  eexists. split; [reflexivity|]. repeat split.
  apply as_str_of_lines. reflexivity.
Qed.

End Construction.

(** ** These properties on concrete inputs *)

Section MoreSamples.
Local Open Scope string_scope.
Local Existing Instance ascii_builtins.



Lemma sanitized_content_has_no_symbols_witness :
  sanitized_content [("_content", PyList [PyStr (lit "a_b, c!")])] true
  = Ok [lit "a_b c"]
  /\ Forall (fun t =>
               forallb (fun c => isalnum c || N.eqb c 95 || isspace c) t = true
               /\ strip_symbols t = t) [lit "a_b c"].
Proof.
  split; [reflexivity|].
  exact (sanitized_content_has_no_symbols
           [("_content", PyList [PyStr (lit "a_b, c!")])] [lit "a_b c"] eq_refl).
Defined.


Lemma as_str_is_str_of_content_witness :
  exists self,
    new Message noon (PyList [PyStr (lit "a"); PyNone]) [] = Ok (PyInst Message self)
    /\ py_str (PyList [PyStr (lit "a"); PyNone]) = Ok (lit "['a', None]")
    /\ as_str self false = Ok (lit "['a', None]").
Proof.
  eexists. split; [reflexivity|]. split; [reflexivity|].
  exact (as_str_is_str_of_content Message noon (PyList [PyStr (lit "a"); PyNone]) _ []
           (lit "['a', None]") eq_refl (fun H : False => H) eq_refl).
Defined.

Lemma as_str_falls_back_to_tokens_witness :
  exists self toks,
    new Message noon shy [] = Ok (PyInst Message self)
    /\ py_str shy = Raise ValueError
    /\ getattr self "content_with_format" = Ok PyNone
    /\ content self = Ok (PyList (map PyStr toks))
    /\ as_str self false = Ok (join (lit " ") toks).
Proof.
  edestruct (as_str_falls_back_to_tokens Message noon shy _ [] ValueError
               eq_refl (fun H : False => H) (fun H : False => H) eq_refl)
    as [_ [Hcwf [toks [Hc Hs]]]].
  eexists _, toks. split; [reflexivity|]. split; [reflexivity|].
  split; [exact Hcwf|]. split; [exact Hc | exact Hs].
Defined.

Lemma content_assignment_keeps_old_text_witness :
  exists self self',
    new Message noon (PyStr (lit "old text")) [] = Ok (PyInst Message self)
    /\ setattr self "content" (PyStr (lit "new")) = Ok self'
    /\ content self' = Ok (PyList [PyStr (lit "new")])
    /\ as_str self' false = Ok (lit "old text").
Proof.
  edestruct (content_assignment_keeps_old_text
               Message noon (PyStr (lit "old text")) _ [] (lit "old text") (lit "new")
               eq_refl (fun H : False => H) eq_refl)
    as [self' [Hset [Hc Hs]]].
  eexists _, self'. split; [reflexivity|]. split; [exact Hset|].
  split; [exact Hc | exact Hs].
Defined.

Lemma repr_of_new_message_witness :
  exists self,
    new Reply noon (PyStr (lit "hi you")) [] = Ok (PyInst Reply self)
    /\ py_str noon = Ok (lit "2021-06-01 12:00:00")
    /\ py_repr (PyInst Reply self)
       = Ok (lit "Reply(author=anonymous, created=2021-06-01 12:00:00, content=['hi', 'you'])").
Proof.
  edestruct (repr_of_new_message Reply noon (PyStr (lit "hi you")) _
               (lit "2021-06-01 12:00:00") eq_refl eq_refl)
    as [toks [Hc Hr]].
  eexists. split; [reflexivity|]. split; [reflexivity|].
  injection Hc as Hc. apply (f_equal (map (fun v => match v with PyStr t => t | _ => [] end))) in Hc.
  rewrite map_map, map_id in Hc. subst toks. exact Hr.
Defined.

Lemma string_tokens_are_clean_witness :
  exists self toks,
    new Message noon (PyStr (lit " a  b ")) [] = Ok (PyInst Message self)
    /\ content self = Ok (PyList (map PyStr toks))
    /\ Forall (fun t => t <> [] /\ forallb (fun c => negb (isspace c)) t = true) toks.
Proof.
  edestruct (string_tokens_are_clean Message noon (lit " a  b ") _ []
               eq_refl (fun H : False => H) (fun H : False => H))
    as [toks [Hc Hf]].
  eexists _, toks. split; [reflexivity|]. split; [exact Hc | exact Hf].
Defined.

Lemma string_tokens_empty_iff_blank_witness :
  exists self,
    new Message noon (PyStr (lit "   ")) [] = Ok (PyInst Message self)
    /\ forallb isspace (lit "   ") = true
    /\ content self = Ok (PyList []).
Proof.
  eexists. split; [reflexivity|]. split; [reflexivity|].
  exact (proj2 (string_tokens_empty_iff_blank Message noon (lit "   ") _ []
                  eq_refl (fun H : False => H) (fun H : False => H)) eq_refl).
Defined.

Lemma sequence_tokens_witness :
  exists self toks,
    new Message noon (PyTuple [PyNone; PyStr (lit "x y")]) [] = Ok (PyInst Message self)
    /\ mapM py_str [PyNone; PyStr (lit "x y")] = Ok toks
    /\ content self = Ok (PyList (map PyStr toks))
    /\ List.length toks = 2.
Proof.
  edestruct (sequence_tokens Message noon (PyTuple [PyNone; PyStr (lit "x y")])
               [PyNone; PyStr (lit "x y")] _ [] (or_intror eq_refl)
               eq_refl (fun H : False => H) (fun H : False => H))
    as [toks [Hm [Hc Hl]]].
  eexists _, toks. split; [reflexivity|]. split; [exact Hm|].
  split; [exact Hc | exact Hl].
Defined.

Lemma content_with_format_has_no_empty_line_witness :
  exists self lines,
    new Message noon (PyStr two_lines) [] = Ok (PyInst Message self)
    /\ getattr self "content_with_format" = Ok (PyList (map PyStr lines))
    /\ Forall (fun l => l <> []) lines.
Proof.
  edestruct (content_with_format_has_no_empty_line Message noon (PyStr two_lines) _ []
               two_lines eq_refl (fun H : False => H) eq_refl)
    as [lines [Hg [Hf _]]].
  eexists _, lines. split; [reflexivity|]. split; [exact Hg | exact Hf].
Defined.

Lemma construction_from_plain_text_succeeds_witness :
  plain_text (PyList [PyStr (lit "a"); PyStr (lit "b")]) = true
  /\ exists self,
       new Message noon (PyList [PyStr (lit "a"); PyStr (lit "b")]) []
       = Ok (PyInst Message self).
Proof.
  split; [reflexivity|].
  exact (construction_from_plain_text_succeeds Message noon
           (PyList [PyStr (lit "a"); PyStr (lit "b")]) eq_refl).
Defined.

Lemma get_put_commute_witness :
  queue {| queue := [PyNone]; unfinished_tasks := 1 |} <> []
  /\ get noon true None (put (PyStr (lit "late")) {| queue := [PyNone]; unfinished_tasks := 1 |})
     = (fst (get noon true None {| queue := [PyNone]; unfinished_tasks := 1 |}),
        {| queue := [PyStr (lit "late")]; unfinished_tasks := 2 |}).
Proof.
  assert (Hq : queue {| queue := [PyNone]; unfinished_tasks := 1 |} <> [])
    by discriminate.
  split; [exact Hq|].
  rewrite (get_put_commute noon true None (PyStr (lit "late"))
             {| queue := [PyNone]; unfinished_tasks := 1 |} Hq).
  reflexivity.
Defined.

Lemma get_drops_payload_when_conversion_fails_witness :
  isinstance_Reply (PyList [unprintable]) = false
  /\ new Reply noon (PyList [unprintable]) [] = Raise RuntimeError
  /\ get noon true None
       {| queue := [PyList [unprintable]; PyStr (lit "next")]; unfinished_tasks := 2 |}
     = (Raise RuntimeError,
        {| queue := [PyStr (lit "next")]; unfinished_tasks := 2 |}).
Proof.
  split; [reflexivity|]. split; [reflexivity|].
  exact (get_drops_payload_when_conversion_fails noon true None
           (PyList [unprintable]) [PyStr (lit "next")] 2 RuntimeError eq_refl eq_refl).
Defined.

End MoreSamples.

(** ** The queue in first-in, first-out order *)

Section Fifo.
Context {builtins : Builtins}.

Local Open Scope string_scope.





End Fifo.

Section FifoSamples.
Local Open Scope string_scope.
Local Existing Instance ascii_builtins.



End FifoSamples.
